(** * await-me-ts: the outcome adapter and its three derivatives

    A shallow embedding of [src/core.ts] ([createAsyncHandler]) and of
    [src/derivatives/index.ts] ([executeAction], [handleLog], [valueOf],
    [isSuccess], [toResult]).

    - JavaScript values are a small inductive type with the language's
      truthiness test.
    - An awaited promise is represented by the way it settles.
    - User supplied functions (predicates, actions, the default handler,
      logging actions, the console) are closures over an abstract world
      [W]; calling one either completes normally or throws, and may change
      the world.
    - Every call the library makes to a user supplied function is appended
      to a call trace, so that "runs", "never runs" and "runs once" are
      statements about that trace. *)

From Stdlib Require Import String List ZArith Bool Lia.
Import ListNotations.
Open Scope string_scope.
Open Scope list_scope.

(** ** JavaScript values *)

#[warnings="-register-all"]
Inductive value : Type :=
| VUndefined
| VNull
| VBool (b : bool)
| VNum (n : Z)
| VNaN
| VStr (s : string)
| VArr (items : list value)
| VObj (fields : list (string * value)).

(** [if (v)], [!v] and [v || d]: the falsy values are [undefined], [null],
    [false], [0], [NaN] and the empty string. *)
Definition truthy (v : value) : bool :=
  match v with
  | VUndefined | VNull | VNaN => false
  | VBool b => b
  | VNum n => negb (n =? 0)%Z
  | VStr s => negb (s =? EmptyString)
  | VArr _ | VObj _ => true
  end.

Definition js_or (v d : value) : value := if truthy v then v else d.

(** The way the awaited promise settles. *)
Inductive settled : Type :=
| Resolved (data : value)
| Rejected (error : value).

(** ** core.ts: RETURN_STYLES *)

Module RETURN_STYLES.
Definition FALSE_STYLE := "false-style".
Definition TRUE_STYLE := "true-style".
Definition GO_STYLE := "goStyle".
Definition ERROR_STYLE := "errorStyle".
Definition ONLY_ERROR := "only-error".
Definition BOOLEAN := "boolean".
End RETURN_STYLES.
Import RETURN_STYLES.

(** A [returnStyle] is a string at run time; the six documented ones. *)
Definition recognized (style : string) : bool :=
  (style =? FALSE_STYLE) || (style =? TRUE_STYLE) || (style =? GO_STYLE)
  || (style =? ERROR_STYLE) || (style =? ONLY_ERROR) || (style =? BOOLEAN).

(** ** Effects: completions, the call trace, closures *)

Inductive method : Type := MError | MLog.

(** One entry per call made by the library into user code. Handlers of the
    chain are named by their position; a logging action by the console
    method [executeAction] was called for (['error'] for the error entry,
    ['log'] for the success entry). *)
Inductive call : Type :=
| CallIfTrue (i : nat) (error : value)
| CallDoIt (i : nat) (error : value)
| CallDefaultHandler (error : value)
| CallFn (m : method) (args : list value)
| CallConsole (m : method) (args : list value).

Inductive completion (A : Type) : Type :=
| Normal (a : A)
| Thrown (x : value).
Arguments Normal {A} a.
Arguments Thrown {A} x.

Section Effects.
Context {W : Type}.

Record state : Type := mkState { trace : list call; world : W }.

(** A computation of the library. *)
Definition M (A : Type) : Type := state -> completion A * state.

(** A user supplied function. *)
Definition closure (A B : Type) : Type := A -> W -> completion B * W.

Definition ret {A} (a : A) : M A := fun s => (Normal a, s).

Definition throw {A} (x : value) : M A := fun s => (Thrown x, s).

Definition bind {A B} (m : M A) (k : A -> M B) : M B :=
  fun s =>
    match m s with
    | (Normal a, s') => k a s'
    | (Thrown x, s') => (Thrown x, s')
    end.

(** [try { m } catch (hErr) { }] *)
Definition try_ignore {A} (m : M A) : M unit :=
  fun s =>
    match m s with
    | (Normal _, s') => (Normal tt, s')
    | (Thrown _, s') => (Normal tt, s')
    end.

(** Calling [f a], recorded as [c]. *)
Definition invoke {A B} (c : call) (f : closure A B) (a : A) : M B :=
  fun s =>
    let (r, w) := f a (world s) in
    (r, {| trace := trace s ++ [c]; world := w |}).
End Effects.
Arguments state W : clear implicits.
Arguments M W A : clear implicits.
Arguments closure W A B : clear implicits.

Declare Scope js_scope.
Delimit Scope js_scope with js.
Notation "x <- m ;; k" := (bind m (fun x => k))
  (at level 61, m at next level, right associativity) : js_scope.
Notation "m ;; k" := (bind m (fun _ => k))
  (at level 61, right associativity) : js_scope.
Open Scope js_scope.

(** ** core.ts: createAsyncHandler *)

Section Core.
Context {W : Type}.

Record ConditionalHandler : Type := {
  ifTrue : closure W value bool;
  doIt : closure W value unit
}.

(** Every field is optional. *)
Record AsyncHandlerConfig : Type := {
  returnStyle : option string;
  conditionalHandlerChain : option (list ConditionalHandler);
  defaultHandler : option (closure W value value)
}.

(** [(e) => { throw e; }] *)
Definition rethrow : closure W value value := fun e w => (Thrown e, w).

(** The [for ... of] loop over the chain, from position [i] on; the
    result is [executedConditional]. *)
Fixpoint walkChain (i : nat) (chain : list ConditionalHandler)
    (error : value) : M W bool :=
  match chain with
  | [] => ret false
  | h :: rest =>
      matched <- invoke (CallIfTrue i error) (ifTrue h) error ;;
      if matched : bool then
        try_ignore (invoke (CallDoIt i error) (doIt h) error) ;;
        ret true
      else walkChain (S i) rest error
  end.

(** The destructuring of [config] with its defaults. *)
Definition style_of (config : AsyncHandlerConfig) : string :=
  match returnStyle config with Some s => s | None => GO_STYLE end.

Definition chain_of (config : AsyncHandlerConfig)
    : list ConditionalHandler :=
  match conditionalHandlerChain config with Some c => c | None => [] end.

Definition default_of (config : AsyncHandlerConfig)
    : closure W value value :=
  match defaultHandler config with Some d => d | None => rethrow end.

Definition createAsyncHandler (config : AsyncHandlerConfig)
    (promise : settled) : M W value :=
  let returnStyle := style_of config in
  let conditionalHandlerChain := chain_of config in
  let defaultHandler := default_of config in
  match promise with
  | Resolved data =>
      if returnStyle =? GO_STYLE then ret (VArr [VNull; data])
      else if returnStyle =? ONLY_ERROR then ret (VNum 0)
      else if returnStyle =? BOOLEAN then ret (VBool true)
      else ret data
  | Rejected error =>
      executedConditional <- walkChain 0 conditionalHandlerChain error ;;
      if returnStyle =? GO_STYLE then ret (VArr [error; VNull])
      else if returnStyle =? ONLY_ERROR then ret (VNum 1)
      else if returnStyle =? BOOLEAN then ret (VBool false)
      else if (returnStyle =? FALSE_STYLE) || (returnStyle =? TRUE_STYLE)
      then
        (if negb executedConditional
         then try_ignore
                (invoke (CallDefaultHandler error) defaultHandler error)
         else ret tt) ;;
        ret (if returnStyle =? FALSE_STYLE then VBool false else VBool true)
      else if returnStyle =? ERROR_STYLE then ret error
      else
        if negb executedConditional
        then invoke (CallDefaultHandler error) defaultHandler error
        else throw error
  end.
End Core.
Arguments ConditionalHandler W : clear implicits.
Arguments AsyncHandlerConfig W : clear implicits.

(** ** derivatives/index.ts *)

Section Derivatives.
Context {W : Type}.

(** The host's [console]: [console m args] is [console[m](...args)]. *)
Variable console : method -> closure W (list value) unit.

(** [createAsyncHandler({ returnStyle: RETURN_STYLES.GO_STYLE })] *)
Definition internalHandler : settled -> M W value :=
  createAsyncHandler
    {| returnStyle := Some GO_STYLE;
       conditionalHandlerChain := None;
       defaultHandler := None |}.

(** [string | { fn, params? }] *)
Inductive LogEntry : Type :=
| EntryMessage (message : string)
| EntryAction (fn : closure W (list value) unit)
              (params : option (list value)).

(** [string | { error?, success? }] *)
Inductive LogConfig : Type :=
| ConfigMessage (message : string)
| ConfigObject (error success : option LogEntry).

Inductive logType : Type := TError | TSuccess.

(** [!entry]: a missing entry and the empty string are falsy. *)
Definition entry_present (entry : option LogEntry) : bool :=
  match entry with
  | None => false
  | Some (EntryMessage s) => negb (s =? EmptyString)
  | Some (EntryAction _ _) => true
  end.

(** An omitted [payload] is [VUndefined]. *)
Definition executeAction (entry : option LogEntry) (m : method)
    (payload : value) : M W unit :=
  match entry with
  | None => ret tt
  | Some (EntryAction fn params) =>
      let params := match params with Some l => l | None => [] end in
      invoke (CallFn m params) fn params
  | Some (EntryMessage s) =>
      if s =? EmptyString then ret tt
      else
        let args := [VStr s; js_or payload (VStr EmptyString)] in
        invoke (CallConsole m args) (console m) args
  end.

Definition handleLog (config : option LogConfig) (type : logType)
    (payload : value) : M W unit :=
  match config with
  | None => ret tt
  | Some (ConfigMessage s) =>
      if s =? EmptyString then ret tt
      else
        match type with
        | TError => executeAction (Some (EntryMessage s)) MError payload
        | TSuccess => ret tt
        end
  | Some (ConfigObject error success) =>
      match type with
      | TError =>
          if entry_present error then executeAction error MError payload
          else ret tt
      | TSuccess =>
          if entry_present success
          then executeAction success MLog VUndefined
          else ret tt
      end
  end.

(** [const [err, data] = pair]: the first two items of an iterable,
    [undefined] where it is too short; a value that is not iterable is a
    [TypeError]. *)
Definition typeError : value :=
  VObj [("name", VStr "TypeError")].

Definition item (l : list value) (i : nat) : value :=
  nth i l VUndefined.

Definition char_at (s : string) (i : nat) : value :=
  match String.get i s with
  | Some c => VStr (String c EmptyString)
  | None => VUndefined
  end.

Definition destructure2 (pair : value) : M W (value * value) :=
  match pair with
  | VArr l => ret (item l 0, item l 1)
  | VStr s => ret (char_at s 0, char_at s 1)
  | _ => throw typeError
  end.

Definition valueOf (promise : settled) (config : option LogConfig)
    : M W value :=
  pair <- internalHandler promise ;;
  ed <- destructure2 pair ;;
  let (err, data) := ed : value * value in
  if truthy err then
    handleLog config TError err ;;
    ret (VBool false)
  else
    handleLog config TSuccess VUndefined ;;
    ret data.

Definition isSuccess (promise : settled) (config : option LogConfig)
    : M W value :=
  pair <- internalHandler promise ;;
  ed <- destructure2 pair ;;
  let (err, _) := ed : value * value in
  if truthy err then
    handleLog config TError err ;;
    ret (VBool false)
  else
    handleLog config TSuccess VUndefined ;;
    ret (VBool true).

Definition result_object (success : bool) (data error : value) : value :=
  VObj [("success", VBool success); ("data", data); ("error", error)].

Definition toResult (promise : settled) (config : option LogConfig)
    : M W value :=
  pair <- internalHandler promise ;;
  ed <- destructure2 pair ;;
  let (err, data) := ed : value * value in
  if truthy err then
    handleLog config TError err ;;
    ret (result_object false VNull err)
  else
    handleLog config TSuccess VUndefined ;;
    ret (result_object true data VNull).
End Derivatives.
Arguments LogEntry W : clear implicits.
Arguments LogConfig W : clear implicits.

(** ** What the specification calls the style-appropriate output *)

(** Output on success, by return style. *)
Definition success_output (style : string) (data : value) : value :=
  if style =? GO_STYLE then VArr [VNull; data]
  else if style =? ONLY_ERROR then VNum 0
  else if style =? BOOLEAN then VBool true
  else data.

(** Output on failure for the six documented styles. *)
Definition failure_output (style : string) (error : value) : value :=
  if style =? GO_STYLE then VArr [error; VNull]
  else if style =? ONLY_ERROR then VNum 1
  else if style =? BOOLEAN then VBool false
  else if style =? FALSE_STYLE then VBool false
  else if style =? TRUE_STYLE then VBool true
  else error.

(** The arguments of the calls to the default handler, in order. *)
Fixpoint default_calls (t : list call) : list value :=
  match t with
  | [] => []
  | CallDefaultHandler e :: t' => e :: default_calls t'
  | _ :: t' => default_calls t'
  end.

Section Vocabulary.
Context {W : Type}.
Implicit Types (s : state W) (e : value)
  (chain : list (ConditionalHandler W)) (config : AsyncHandlerConfig W).

(** Predicates that return on every input. *)
Definition predicates_return chain : Prop :=
  forall h, In h chain ->
  forall e w, exists b w', ifTrue h e w = (Normal b, w').

(** The state in which a failing invocation ends once the walk is over:
    the shielding styles call the default handler when nothing matched. *)
Definition after_walk config e (matched : bool) s1 : state W :=
  if ((style_of config =? FALSE_STYLE) || (style_of config =? TRUE_STYLE))
     && negb matched
  then snd (invoke (CallDefaultHandler e) (default_of config) e s1)
  else s1.

(** The three derivatives, under a given console. *)
Definition derivatives (console : method -> closure W (list value) unit)
    : list (settled -> option (LogConfig W) -> M W value) :=
  [valueOf console; isSuccess console; toResult console].
End Vocabulary.

(** ** Sample handlers, over a world that is a sink of reported values *)

Module Sample.
Definition sink : Type := list value.

Definition start : state sink := {| trace := []; world := [] |}.

(** [obj.code] *)
Fixpoint field (name : string) (fields : list (string * value)) : value :=
  match fields with
  | [] => VUndefined
  | (k, v) :: rest => if k =? name then v else field name rest
  end.

(** [(e) => e.code === n] *)
Definition code_is (n : Z) : closure sink value bool :=
  fun e w =>
    match e with
    | VObj fs =>
        match field "code" fs with
        | VNum c => (Normal (c =? n)%Z, w)
        | _ => (Normal false, w)
        end
    | VUndefined | VNull => (Thrown (VObj [("name", VStr "TypeError")]), w)
    | _ => (Normal false, w)
    end.

(** [() => {}] *)
Definition noop {A} : closure sink A unit := fun _ w => (Normal tt, w).

(** [() => b] *)
Definition always (b : bool) : closure sink value bool :=
  fun _ w => (Normal b, w).

(** [(e) => { sink.push(tag) }] *)
Definition report {A} (tag : value) : closure sink A unit :=
  fun _ w => (Normal tt, (w ++ [tag])%list).

(** [(e) => { sink.push(e) }] *)
Definition report_reason : closure sink value value :=
  fun e w => (Normal VUndefined, (w ++ [e])%list).

(** [() => { throw x }] *)
Definition throws {A B} (x : value) : closure sink A B :=
  fun _ w => (Thrown x, w).

(** [(e) => { sink.push(tag); throw x }] *)
Definition report_then_throw {A B} (tag x : value) : closure sink A B :=
  fun _ w => (Thrown x, (w ++ [tag])%list).

(** [(e) => 'recovered'] *)
Definition recover : closure sink value value :=
  fun _ w => (Normal (VStr "recovered"), w).

Definition console : method -> closure sink (list value) unit :=
  fun m args w =>
    (Normal tt,
     (w ++ [VArr (VStr (match m with MError => "error" | MLog => "log" end)
                  :: args)])%list).

(** A console whose methods were replaced by throwing ones. *)
Definition broken_console : method -> closure sink (list value) unit :=
  fun _ _ w => (Thrown (VStr "console is closed"), w).

Definition boom : value := VStr "boom".

(** [(...args) => { sink.push(args) }] *)
Definition record_args : closure sink (list value) unit :=
  fun args w => (Normal tt, w ++ [VArr args]).

(** [{ error: { fn: ... }, success: { fn: ... } }] *)
Definition logs_both : LogConfig sink :=
  ConfigObject (Some (EntryAction (report (VStr "error action")) None))
               (Some (EntryAction (report (VStr "success action")) None)).

(** [{ error: { fn, params } }] *)
Definition on_error (fn : closure sink (list value) unit)
    (params : list value) : LogConfig sink :=
  ConfigObject (Some (EntryAction fn (Some params))) None.

Definition err (code : Z) (message : string) : value :=
  VObj [("message", VStr message); ("code", VNum code)].

Definition H (n : Z) (tag : string) : ConditionalHandler sink :=
  {| ifTrue := code_is n; doIt := report (VStr tag) |}.

Definition config (style : string) (chain : list (ConditionalHandler sink))
    (d : closure sink value value) : AsyncHandlerConfig sink :=
  {| returnStyle := Some style;
     conditionalHandlerChain := Some chain;
     defaultHandler := Some d |}.

(** [{ ifTrue: () => b, doIt }] *)
Definition when (b : bool) (action : closure sink value unit)
    : ConditionalHandler sink :=
  {| ifTrue := always b; doIt := action |}.

(** The chain of three handlers of which the second is the first to
    accept a reason with code 500. *)
Definition three : AsyncHandlerConfig sink :=
  config FALSE_STYLE [H 404 "first"; H 500 "second"; H 500 "third"]
    report_reason.

(** The shield of the README: 404 is expected, anything else is reported. *)
Definition shield (style : string) : AsyncHandlerConfig sink :=
  config style [H 404 "expected"] report_reason.
End Sample.

(** ** Further vocabulary: call counts and variations of a config *)

(** The calls [ifTrue(e)] of the handlers at positions [i .. i+n-1]. *)
Definition predicate_calls (i n : nat) (e : value) : list call :=
  map (fun k => CallIfTrue k e) (seq i n).

(** The number of calls to a side-effect handler, that is to a conditional
    action or to the default handler. *)
Fixpoint handler_calls (t : list call) : nat :=
  match t with
  | [] => 0
  | CallDoIt _ _ :: t' => S (handler_calls t')
  | CallDefaultHandler _ :: t' => S (handler_calls t')
  | _ :: t' => handler_calls t'
  end.

(** The calls to a logging action or to the console. *)
Definition log_call (c : call) : bool :=
  match c with
  | CallFn _ _ | CallConsole _ _ => true
  | _ => false
  end.

(** Each derivative as one logging step followed by an output: the kind of
    step, its payload and the output, by settlement. *)
Definition step_type (promise : settled) : logType :=
  match promise with
  | Resolved _ => TSuccess
  | Rejected e => if truthy e then TError else TSuccess
  end.

Definition step_payload (promise : settled) : value :=
  match promise with
  | Resolved _ => VUndefined
  | Rejected e => if truthy e then e else VUndefined
  end.

(** A settlement that the derivatives can tell from a success: a success,
    or a failure whose reason is truthy. *)
Definition detectable (promise : settled) : bool :=
  match promise with
  | Resolved _ => true
  | Rejected e => truthy e
  end.

Section Variations.
Context {W : Type}.

(** [{ ...config, defaultHandler: d }] *)
Definition with_default (config : AsyncHandlerConfig W)
    (d : option (closure W value value)) : AsyncHandlerConfig W :=
  {| returnStyle := returnStyle config;
     conditionalHandlerChain := conditionalHandlerChain config;
     defaultHandler := d |}.

(** [{ ...config, conditionalHandlerChain: chain }] *)
Definition with_chain (config : AsyncHandlerConfig W)
    (chain : list (ConditionalHandler W)) : AsyncHandlerConfig W :=
  {| returnStyle := returnStyle config;
     conditionalHandlerChain := Some chain;
     defaultHandler := defaultHandler config |}.
End Variations.

(** ** Further sample configurations *)

Module Scenario.
(** [{ returnStyle, conditionalHandlerChain }], no [defaultHandler]. *)
Definition no_default (style : string)
    (chain : list (ConditionalHandler Sample.sink))
    : AsyncHandlerConfig Sample.sink :=
  {| returnStyle := Some style;
     conditionalHandlerChain := Some chain;
     defaultHandler := None |}.

(** [{ error: 'Failed', success: { fn, params: ['/dashboard'] } }] *)
Definition redirect_or_message : LogConfig Sample.sink :=
  ConfigObject (Some (EntryMessage "Failed"))
               (Some (EntryAction Sample.record_args
                        (Some [VStr "/dashboard"]))).

Definition down : value := Sample.err 500 "down".
End Scenario.

(** * Facts about the adapter *)

Section CoreFacts.
Context {W : Type}.
Implicit Types (s : state W) (e x : value) (h : ConditionalHandler W)
  (chain : list (ConditionalHandler W)) (config : AsyncHandlerConfig W).

Lemma bind_normal {A B} (m : M W A) (k : A -> M W B) s a s' :
  m s = (Normal a, s') -> bind m k s = k a s'.
Proof. intros E. unfold bind. now rewrite E. Qed.

Lemma bind_thrown {A B} (m : M W A) (k : A -> M W B) s x s' :
  m s = (Thrown x, s') -> bind m k s = (Thrown x, s').
Proof. intros E. unfold bind. now rewrite E. Qed.

Lemma default_calls_app (t1 t2 : list call) :
  default_calls (t1 ++ t2) = (default_calls t1 ++ default_calls t2)%list.
Proof.
  induction t1 as [|c t1 IH]; simpl; [reflexivity|].
  destruct c; simpl; rewrite IH; reflexivity.
Qed.

(** A predicate that declines passes the walk on to the next handler. *)
Lemma walkChain_decline i h chain e s w :
  ifTrue h e (world s) = (Normal false, w) ->
  walkChain i (h :: chain) e s =
  walkChain (S i) chain e
    {| trace := trace s ++ [CallIfTrue i e]; world := w |}.
Proof.
  intros E. simpl. unfold bind, invoke. rewrite E. reflexivity.
Qed.

(** A predicate that accepts ends the walk: its action is called, whatever
    the action does the walk reports a match, and the rest of the chain
    is not looked at. *)
Lemma walkChain_match i h chain e s w :
  ifTrue h e (world s) = (Normal true, w) ->
  walkChain i (h :: chain) e s =
  (Normal true,
   {| trace := trace s ++ [CallIfTrue i e; CallDoIt i e];
      world := snd (doIt h e w) |}).
Proof.
  intros E. simpl. unfold bind, try_ignore, invoke, ret. rewrite E. simpl.
  destruct (doIt h e w) as [[u|x] w']; simpl;
    rewrite <- app_assoc; reflexivity.
Qed.

(** A predicate that throws ends the walk with what it threw. *)
Lemma walkChain_predicate_throws i h chain e s x w :
  ifTrue h e (world s) = (Thrown x, w) ->
  walkChain i (h :: chain) e s =
  (Thrown x, {| trace := trace s ++ [CallIfTrue i e]; world := w |}).
Proof.
  intros E. simpl. unfold bind, invoke. rewrite E. reflexivity.
Qed.

(** The chain is walked in order: handlers that decline are passed, and the
    first one that accepts, at whatever position, ends the walk. *)
Lemma walkChain_app_declined pre rest e : forall i s s1,
  walkChain i pre e s = (Normal false, s1) ->
  walkChain i (pre ++ rest) e s = walkChain (i + length pre) rest e s1.
Proof.
  induction pre as [|h pre IH]; intros i s s1 E.
  - injection E as <-. simpl. now rewrite Nat.add_0_r.
  - destruct (ifTrue h e (world s)) as [[[|]|x] w] eqn:P.
    + rewrite (walkChain_match _ _ _ _ _ _ P) in E. discriminate E.
    + rewrite (walkChain_decline _ _ _ _ _ _ P) in E.
      change ((h :: pre) ++ rest) with (h :: (pre ++ rest)).
      rewrite (walkChain_decline _ _ _ _ _ _ P), (IH _ _ _ E).
      simpl. now rewrite Nat.add_succ_r.
    + rewrite (walkChain_predicate_throws _ _ _ _ _ _ _ P) in E.
      discriminate E.
Qed.

Lemma walkChain_first_match pre h post e i s s1 w :
  walkChain i pre e s = (Normal false, s1) ->
  ifTrue h e (world s1) = (Normal true, w) ->
  walkChain i (pre ++ h :: post) e s =
  (Normal true,
   {| trace := trace s1 ++ [CallIfTrue (i + length pre) e;
                            CallDoIt (i + length pre) e];
      world := snd (doIt h e w) |}).
Proof.
  intros E P. rewrite (walkChain_app_declined _ _ _ _ _ _ E).
  apply (walkChain_match _ _ _ _ _ _ P).
Qed.

(** The walk never calls the default handler. *)
Lemma walkChain_default_calls chain : forall i e s,
  default_calls (trace (snd (walkChain i chain e s))) =
  default_calls (trace s).
Proof.
  induction chain as [|h chain IH]; intros i e s; [reflexivity|].
  destruct (ifTrue h e (world s)) as [[[|]|x] w] eqn:E.
  - rewrite (walkChain_match _ _ _ _ _ _ E). simpl.
    rewrite default_calls_app. simpl. now rewrite app_nil_r.
  - rewrite (walkChain_decline _ _ _ _ _ _ E), IH. simpl.
    rewrite default_calls_app. simpl. now rewrite app_nil_r.
  - rewrite (walkChain_predicate_throws _ _ _ _ _ _ _ E). simpl.
    rewrite default_calls_app. simpl. now rewrite app_nil_r.
Qed.

(** The walk can only fail with something a predicate threw. *)
Lemma walkChain_thrown chain : forall i e s x s',
  walkChain i chain e s = (Thrown x, s') ->
  exists h w w', In h chain /\ ifTrue h e w = (Thrown x, w').
Proof.
  induction chain as [|h chain IH]; intros i e s x s' E; [discriminate|].
  destruct (ifTrue h e (world s)) as [[[|]|y] w] eqn:P.
  - rewrite (walkChain_match _ _ _ _ _ _ P) in E. discriminate.
  - rewrite (walkChain_decline _ _ _ _ _ _ P) in E.
    destruct (IH _ _ _ _ _ E) as (h' & w1 & w2 & I & T).
    exists h', w1, w2. split; [now right | exact T].
  - rewrite (walkChain_predicate_throws _ _ _ _ _ _ _ P) in E.
    injection E as -> _. exists h, (world s), w. split; [now left | exact P].
Qed.

Lemma walkChain_returns chain i e s :
  predicates_return chain ->
  exists matched s', walkChain i chain e s = (Normal matched, s').
Proof.
  intros R. destruct (walkChain i chain e s) as [[b|x] s'] eqn:E.
  - now exists b, s'.
  - destruct (walkChain_thrown _ _ _ _ _ _ E) as (h & w & w' & I & T).
    destruct (R h I e w) as (b & w'' & N). congruence.
Qed.

(** On success the output is computed without any call. *)
Lemma createAsyncHandler_resolved config data s :
  createAsyncHandler config (Resolved data) s =
  (Normal (success_output (style_of config) data), s).
Proof.
  unfold createAsyncHandler, success_output.
  destruct (style_of config =? GO_STYLE); [reflexivity|].
  destruct (style_of config =? ONLY_ERROR); [reflexivity|].
  destruct (style_of config =? BOOLEAN); reflexivity.
Qed.

(** On failure the walk comes first; what it throws is the result. *)
Lemma createAsyncHandler_walk_thrown config e s x s' :
  walkChain 0 (chain_of config) e s = (Thrown x, s') ->
  createAsyncHandler config (Rejected e) s = (Thrown x, s').
Proof. intros E. unfold createAsyncHandler. now apply bind_thrown. Qed.

Lemma createAsyncHandler_rejected config e s matched s1 :
  recognized (style_of config) = true ->
  walkChain 0 (chain_of config) e s = (Normal matched, s1) ->
  createAsyncHandler config (Rejected e) s =
  (Normal (failure_output (style_of config) e),
   after_walk config e matched s1).
Proof.
  intros R E. unfold createAsyncHandler.
  rewrite (bind_normal _ _ _ _ _ E).
  unfold recognized in R. unfold failure_output, after_walk.
  destruct (style_of config =? GO_STYLE) eqn:G.
  { destruct (style_of config =? FALSE_STYLE) eqn:F.
    - apply String.eqb_eq in G, F. rewrite G in F. discriminate.
    - destruct (style_of config =? TRUE_STYLE) eqn:T; [|reflexivity].
      apply String.eqb_eq in G, T. rewrite G in T. discriminate. }
  destruct (style_of config =? ONLY_ERROR) eqn:O.
  { destruct (style_of config =? FALSE_STYLE) eqn:F.
    - apply String.eqb_eq in O, F. rewrite O in F. discriminate.
    - destruct (style_of config =? TRUE_STYLE) eqn:T; [|reflexivity].
      apply String.eqb_eq in O, T. rewrite O in T. discriminate. }
  destruct (style_of config =? BOOLEAN) eqn:B.
  { destruct (style_of config =? FALSE_STYLE) eqn:F.
    - apply String.eqb_eq in B, F. rewrite B in F. discriminate.
    - destruct (style_of config =? TRUE_STYLE) eqn:T; [|reflexivity].
      apply String.eqb_eq in B, T. rewrite B in T. discriminate. }
  destruct (style_of config =? FALSE_STYLE) eqn:F; simpl.
  { destruct matched; simpl; [reflexivity|].
    unfold bind, try_ignore, invoke, ret.
    destruct (default_of config e (world s1)) as [[v|y] w]; reflexivity. }
  destruct (style_of config =? TRUE_STYLE) eqn:T; simpl.
  { destruct matched; simpl; [reflexivity|].
    unfold bind, try_ignore, invoke, ret.
    destruct (default_of config e (world s1)) as [[v|y] w]; reflexivity. }
  destruct (style_of config =? ERROR_STYLE) eqn:Er; [reflexivity|].
  discriminate.
Qed.

(** The fallback arm of the switch. *)
Lemma createAsyncHandler_fallback config e s matched s1 :
  recognized (style_of config) = false ->
  walkChain 0 (chain_of config) e s = (Normal matched, s1) ->
  createAsyncHandler config (Rejected e) s =
  if matched then (Thrown e, s1)
  else invoke (CallDefaultHandler e) (default_of config) e s1.
Proof.
  intros R E. unfold createAsyncHandler.
  rewrite (bind_normal _ _ _ _ _ E).
  unfold recognized in R.
  repeat (apply orb_false_iff in R; destruct R as [R ?]).
  repeat match goal with Q : (_ =? _) = false |- _ => rewrite Q; clear Q end.
  simpl. destruct matched; reflexivity.
Qed.
End CoreFacts.

(** * The adapter's contract *)

Section CoreClaims.
Context {W : Type}.
Implicit Types (s : state W) (e x data : value) (h : ConditionalHandler W)
  (config : AsyncHandlerConfig W).

(** C4. Handlers run only on failure and the first match wins. On success,
    whatever the return style, the invocation makes no call at all: the
    state (call trace and world) is left as it was. On failure with the
    chain [[H1; H2; H3]], where the predicate of [H1] declines and that of
    [H2] accepts, the calls made are exactly: predicate of [H1], predicate
    of [H2], action of [H2]. So the actions of [H1] and [H3] do not run,
    [H3] is not evaluated, and the default handler is not called. *)
Theorem handlers_on_failure_first_match_wins
    config (H1 H2 H3 : ConditionalHandler W) data e s w1 w2 :
  (exists out, createAsyncHandler config (Resolved data) s = (Normal out, s))
  /\ (chain_of config = [H1; H2; H3] ->
      ifTrue H1 e (world s) = (Normal false, w1) ->
      ifTrue H2 e w1 = (Normal true, w2) ->
      exists out,
        createAsyncHandler config (Rejected e) s =
        (out,
         {| trace := trace s ++
                     [CallIfTrue 0 e; CallIfTrue 1 e; CallDoIt 1 e];
            world := snd (doIt H2 e w2) |})).
Proof.
  split.
  - eexists. apply createAsyncHandler_resolved.
  - intros C P1 P2.
    assert (Wk : walkChain 0 (chain_of config) e s =
                 (Normal true,
                  {| trace := trace s ++
                       [CallIfTrue 0 e; CallIfTrue 1 e; CallDoIt 1 e];
                     world := snd (doIt H2 e w2) |})).
    { rewrite C, (walkChain_decline _ _ _ _ _ _ P1).
      rewrite (walkChain_match 1 H2 [H3] e
                 {| trace := trace s ++ [CallIfTrue 0 e]; world := w1 |}
                 w2 P2). simpl.
      rewrite <- app_assoc. reflexivity. }
    destruct (recognized (style_of config)) eqn:R.
    + rewrite (createAsyncHandler_rejected _ _ _ _ _ R Wk).
      unfold after_walk. rewrite andb_false_r. eexists. reflexivity.
    + rewrite (createAsyncHandler_fallback _ _ _ _ _ R Wk).
      eexists. reflexivity.
Qed.

(** C5. For [goStyle], [only-error] and [boolean] the output depends only
    on the way the operation settles: [[null, value]] / [[reason, null]],
    [0] / [1], [true] / [false], for every value and reason (falsy ones
    included). On failure the chain is walked first; the output is
    produced once the walk is over. *)
Theorem settlement_styles_output config data e s :
  (style_of config = GO_STYLE ->
     createAsyncHandler config (Resolved data) s
       = (Normal (VArr [VNull; data]), s)
     /\ forall matched s1,
         walkChain 0 (chain_of config) e s = (Normal matched, s1) ->
         createAsyncHandler config (Rejected e) s
           = (Normal (VArr [e; VNull]), s1))
  /\ (style_of config = ONLY_ERROR ->
     createAsyncHandler config (Resolved data) s = (Normal (VNum 0), s)
     /\ forall matched s1,
         walkChain 0 (chain_of config) e s = (Normal matched, s1) ->
         createAsyncHandler config (Rejected e) s = (Normal (VNum 1), s1))
  /\ (style_of config = BOOLEAN ->
     createAsyncHandler config (Resolved data) s = (Normal (VBool true), s)
     /\ forall matched s1,
         walkChain 0 (chain_of config) e s = (Normal matched, s1) ->
         createAsyncHandler config (Rejected e) s
           = (Normal (VBool false), s1)).
Proof.
  split; [|split]; intros St;
    (split;
     [ rewrite createAsyncHandler_resolved, St; reflexivity
     | intros matched s1 Wk;
       rewrite (createAsyncHandler_rejected config e s matched s1);
       [ unfold after_walk; rewrite St; reflexivity
       | rewrite St; reflexivity
       | exact Wk ] ]).
Qed.

(** C6. For [false-style] and [true-style], success returns the settled
    value unchanged (falsy or not). On failure, once the walk is over, the
    default handler is called with the failure reason exactly once when no
    conditional handler matched and not at all when one did; whether it
    returns or throws, the output is the fixed boolean of the style. *)
Theorem shielding_styles_output config data e s :
  style_of config = FALSE_STYLE \/ style_of config = TRUE_STYLE ->
  createAsyncHandler config (Resolved data) s = (Normal data, s)
  /\ forall matched s1,
       walkChain 0 (chain_of config) e s = (Normal matched, s1) ->
       exists s2,
         createAsyncHandler config (Rejected e) s
           = (Normal (VBool (style_of config =? TRUE_STYLE)), s2)
         /\ trace s2
            = trace s1 ++ (if matched then [] else [CallDefaultHandler e])
         /\ world s2
            = (if matched then world s1
               else snd (default_of config e (world s1)))
         /\ default_calls (trace s2)
            = default_calls (trace s) ++ (if matched then [] else [e]).
Proof.
  intros St. split.
  - rewrite createAsyncHandler_resolved.
    destruct St as [St|St]; rewrite St; reflexivity.
  - intros matched s1 Wk. exists (after_walk config e matched s1).
    assert (D : default_calls (trace s1) = default_calls (trace s)).
    { pose proof (walkChain_default_calls (chain_of config) 0 e s) as Q.
      rewrite Wk in Q. exact Q. }
    rewrite (createAsyncHandler_rejected config e s matched s1);
      [ | destruct St as [St|St]; rewrite St; reflexivity | exact Wk ].
    unfold after_walk.
    assert (Sh : (style_of config =? FALSE_STYLE)
                 || (style_of config =? TRUE_STYLE) = true)
      by (destruct St as [St|St]; rewrite St; reflexivity).
    rewrite Sh. simpl.
    split; [destruct St as [St|St]; rewrite St; reflexivity|].
    destruct matched; simpl.
    + rewrite !app_nil_r. repeat split. exact D.
    + unfold invoke.
      destruct (default_of config e (world s1)) as [r w] eqn:Dh. simpl.
      repeat split.
      rewrite default_calls_app, D. reflexivity.
Qed.

(** C7. For a return style that is none of the six documented ones, a
    failing invocation whose walk matched no conditional handler makes
    the call [defaultHandler(e)] and that call's completion is the
    invocation's result (the value it returns is the output); when a
    conditional handler matched, the invocation re-raises [e] and the
    default handler is not called. *)
Theorem unrecognized_style_fallback config e s matched s1 :
  recognized (style_of config) = false ->
  walkChain 0 (chain_of config) e s = (Normal matched, s1) ->
  createAsyncHandler config (Rejected e) s =
  if matched then (Thrown e, s1)
  else (fst (default_of config e (world s1)),
        {| trace := trace s1 ++ [CallDefaultHandler e];
           world := snd (default_of config e (world s1)) |}).
Proof.
  intros R Wk. rewrite (createAsyncHandler_fallback _ _ _ _ _ R Wk).
  destruct matched; [reflexivity|].
  unfold invoke. destruct (default_of config e (world s1)); reflexivity.
Qed.

(** C2, as amended. For the six documented styles, a failing invocation
    whose predicates return completes with the output of its style,
    whatever the conditional actions and the default handler do when they
    are called, throwing included. What a predicate throws during the walk
    is not caught: the invocation fails with it, and this is the only way
    in which it can fail. *)
Theorem action_and_default_throws_swallowed config e s :
  recognized (style_of config) = true ->
  (predicates_return (chain_of config) ->
   exists s2,
     createAsyncHandler config (Rejected e) s
       = (Normal (failure_output (style_of config) e), s2))
  /\ (forall matched s1,
       walkChain 0 (chain_of config) e s = (Normal matched, s1) ->
       exists s2,
         createAsyncHandler config (Rejected e) s
           = (Normal (failure_output (style_of config) e), s2))
  /\ (forall x s1,
       walkChain 0 (chain_of config) e s = (Thrown x, s1) ->
       createAsyncHandler config (Rejected e) s = (Thrown x, s1))
  /\ (forall x s',
       createAsyncHandler config (Rejected e) s = (Thrown x, s') ->
       exists h w w',
         In h (chain_of config) /\ ifTrue h e w = (Thrown x, w')).
Proof.
  intros R. split; [|split; [|split]].
  - intros P.
    destruct (walkChain_returns (chain_of config) 0 e s P)
      as (matched & s1 & Wk).
    eexists. apply (createAsyncHandler_rejected _ _ _ _ _ R Wk).
  - intros matched s1 Wk.
    eexists. apply (createAsyncHandler_rejected _ _ _ _ _ R Wk).
  - intros x s1. apply createAsyncHandler_walk_thrown.
  - intros x s' E.
    destruct (walkChain 0 (chain_of config) e s) as [[matched|y] s1] eqn:Wk.
    + rewrite (createAsyncHandler_rejected _ _ _ _ _ R Wk) in E.
      discriminate E.
    + rewrite (createAsyncHandler_walk_thrown _ _ _ _ _ Wk) in E.
      injection E as -> _.
      apply (walkChain_thrown _ _ _ _ _ _ Wk).
Qed.
End CoreClaims.

(** * Facts about the derivatives *)

Section DerivativeFacts.
Context {W : Type}.
Variable console : method -> closure W (list value) unit.
Implicit Types (s : state W) (e x data : value)
  (config : option (LogConfig W)).

(** The shared handler never calls anything and never fails. *)
Lemma internalHandler_resolved data s :
  internalHandler (Resolved data) s = (Normal (VArr [VNull; data]), s).
Proof. reflexivity. Qed.

Lemma internalHandler_rejected e s :
  internalHandler (Rejected e) s = (Normal (VArr [e; VNull]), s).
Proof. reflexivity. Qed.

Lemma bind_ret_thrown {A B} (m : M W A) (b : B) s x s' :
  m s = (Thrown x, s') -> (m ;; ret b) s = (Thrown x, s').
Proof. apply bind_thrown. Qed.

Lemma bind_ret_normal {A B} (m : M W A) (b : B) s a s' :
  m s = (Normal a, s') -> (m ;; ret b) s = (Normal b, s').
Proof. intros E. now rewrite (bind_normal _ _ _ _ _ E). Qed.

Lemma snd_bind_ret {A B} (m : M W A) (b : B) s :
  snd ((m ;; ret b) s) = snd (m s).
Proof. unfold bind, ret. destruct (m s) as [[a|x] s']; reflexivity. Qed.

(** Each derivative is one logging step followed by its output. The branch
    is chosen by the truthiness of the first item of the go-style pair. *)
Lemma valueOf_resolved data config s :
  valueOf console (Resolved data) config s =
  (handleLog console config TSuccess VUndefined ;; ret data) s.
Proof. reflexivity. Qed.

Lemma isSuccess_resolved data config s :
  isSuccess console (Resolved data) config s =
  (handleLog console config TSuccess VUndefined ;; ret (VBool true)) s.
Proof. reflexivity. Qed.

Lemma toResult_resolved data config s :
  toResult console (Resolved data) config s =
  (handleLog console config TSuccess VUndefined ;;
   ret (result_object true data VNull)) s.
Proof. reflexivity. Qed.

Lemma valueOf_rejected e config s :
  valueOf console (Rejected e) config s =
  if truthy e
  then (handleLog console config TError e ;; ret (VBool false)) s
  else (handleLog console config TSuccess VUndefined ;; ret VNull) s.
Proof. unfold valueOf. cbn. destruct (truthy e); reflexivity. Qed.

Lemma isSuccess_rejected e config s :
  isSuccess console (Rejected e) config s =
  if truthy e
  then (handleLog console config TError e ;; ret (VBool false)) s
  else (handleLog console config TSuccess VUndefined ;; ret (VBool true)) s.
Proof. unfold isSuccess. cbn. destruct (truthy e); reflexivity. Qed.

Lemma toResult_rejected e config s :
  toResult console (Rejected e) config s =
  if truthy e
  then (handleLog console config TError e ;;
        ret (result_object false VNull e)) s
  else (handleLog console config TSuccess VUndefined ;;
        ret (result_object true VNull VNull)) s.
Proof. unfold toResult. cbn. destruct (truthy e); reflexivity. Qed.

(** A rejection with a falsy reason is handled exactly as a success with
    value [null]. *)
Lemma falsy_rejection_as_null_success e config s :
  truthy e = false ->
  valueOf console (Rejected e) config s
    = valueOf console (Resolved VNull) config s
  /\ isSuccess console (Rejected e) config s
    = isSuccess console (Resolved VNull) config s
  /\ toResult console (Rejected e) config s
    = toResult console (Resolved VNull) config s.
Proof.
  intros F.
  rewrite valueOf_rejected, isSuccess_rejected, toResult_rejected, F.
  repeat split.
Qed.

(** With a truthy reason and a logging step that returns, the three
    outputs are [false], [false] and the failure object. *)
Lemma truthy_rejection_outputs e config s s' :
  truthy e = true ->
  handleLog console config TError e s = (Normal tt, s') ->
  valueOf console (Rejected e) config s = (Normal (VBool false), s')
  /\ isSuccess console (Rejected e) config s = (Normal (VBool false), s')
  /\ toResult console (Rejected e) config s
    = (Normal (result_object false VNull e), s').
Proof.
  intros T L.
  rewrite valueOf_rejected, isSuccess_rejected, toResult_rejected, T.
  repeat split; apply (bind_ret_normal _ _ _ _ _ L).
Qed.

(** With a logging step that returns, a success gives the value, [true]
    and the success object: [false] as a value stays a success. *)
Lemma resolved_outputs data config s s' :
  handleLog console config TSuccess VUndefined s = (Normal tt, s') ->
  valueOf console (Resolved data) config s = (Normal data, s')
  /\ isSuccess console (Resolved data) config s = (Normal (VBool true), s')
  /\ toResult console (Resolved data) config s
    = (Normal (result_object true data VNull), s').
Proof.
  intros L.
  rewrite valueOf_resolved, isSuccess_resolved, toResult_resolved.
  repeat split; apply (bind_ret_normal _ _ _ _ _ L).
Qed.

(** Without a log configuration nothing is called. *)
Lemma handleLog_none type payload s :
  handleLog console None type payload s = (Normal tt, s).
Proof. reflexivity. Qed.

(** The logging step of a failure, entry by entry. *)
Lemma handleLog_error_fn fn params success e s :
  handleLog console
    (Some (ConfigObject (Some (EntryAction fn params)) success)) TError e s
  = invoke (CallFn MError (match params with Some l => l | None => [] end))
      fn (match params with Some l => l | None => [] end) s.
Proof. reflexivity. Qed.

Lemma handleLog_error_message msg success e s :
  msg <> EmptyString -> truthy e = true ->
  handleLog console
    (Some (ConfigObject (Some (EntryMessage msg)) success)) TError e s
  = invoke (CallConsole MError [VStr msg; e]) (console MError)
      [VStr msg; e] s.
Proof.
  intros N T. apply String.eqb_neq in N.
  unfold handleLog, entry_present, executeAction, js_or.
  rewrite N, T. reflexivity.
Qed.

Lemma handleLog_message msg e s :
  msg <> EmptyString -> truthy e = true ->
  handleLog console (Some (ConfigMessage msg)) TError e s
  = invoke (CallConsole MError [VStr msg; e]) (console MError)
      [VStr msg; e] s.
Proof.
  intros N T. apply String.eqb_neq in N.
  unfold handleLog, entry_present, executeAction, js_or.
  rewrite N, T. reflexivity.
Qed.

(** The logging step can only fail with what a logging action or the
    console threw. *)
Lemma executeAction_thrown entry m payload s x s' :
  executeAction console entry m payload s = (Thrown x, s') ->
  (exists fn params,
     entry = Some (EntryAction fn params)
     /\ fst (fn (match params with Some l => l | None => [] end) (world s))
        = Thrown x)
  \/ (exists msg,
      entry = Some (EntryMessage msg)
      /\ fst (console m [VStr msg; js_or payload (VStr EmptyString)] (world s))
         = Thrown x).
Proof.
  destruct entry as [[msg|fn params]|]; cbn; [| |discriminate].
  - destruct (msg =? EmptyString); [discriminate|]. unfold invoke.
    destruct (console m _ (world s)) as [r w] eqn:C. intros [= -> _].
    right. exists msg. now rewrite C.
  - unfold invoke.
    destruct (fn _ (world s)) as [r w] eqn:C. intros [= -> _].
    left. exists fn, params. now rewrite C.
Qed.
End DerivativeFacts.

(** * The derivatives' contract *)

Section DerivativeClaims.
Context {W : Type}.
Variable console : method -> closure W (list value) unit.
Implicit Types (s : state W) (e x data : value).

(** C3, as amended. What the logging step of a derivative throws is not
    caught: when the logging action that runs for the outcome (the [fn] of
    an entry, or the console for a message) throws, [valueOf], [isSuccess]
    and [toResult] all fail with it, in the state the action left, instead
    of returning their output. This holds for the error step of a failure
    and for the success step of a success. *)
Theorem logging_throw_propagates (config : option (LogConfig W)) e data
    s x s' :
  (truthy e = true ->
   handleLog console config TError e s = (Thrown x, s') ->
   Forall (fun d => d (Rejected e) config s = (Thrown x, s'))
          (derivatives console))
  /\ (handleLog console config TSuccess VUndefined s = (Thrown x, s') ->
      Forall (fun d => d (Resolved data) config s = (Thrown x, s'))
             (derivatives console)).
Proof.
  split.
  - intros T L. repeat constructor.
    + rewrite valueOf_rejected, T. apply (bind_ret_thrown _ _ _ _ _ L).
    + rewrite isSuccess_rejected, T. apply (bind_ret_thrown _ _ _ _ _ L).
    + rewrite toResult_rejected, T. apply (bind_ret_thrown _ _ _ _ _ L).
  - intros L. repeat constructor.
    + rewrite valueOf_resolved. apply (bind_ret_thrown _ _ _ _ _ L).
    + rewrite isSuccess_resolved. apply (bind_ret_thrown _ _ _ _ _ L).
    + rewrite toResult_resolved. apply (bind_ret_thrown _ _ _ _ _ L).
Qed.

(** C9, as amended. When the operation fails with a truthy reason [e]:
    an error entry [{fn, params}] makes each derivative call [fn] with
    exactly [params] (with no argument when [params] is missing), the
    reason is not added; a non-empty message as error entry, or as the
    whole log configuration, makes each derivative call [console.error]
    with the message and [e]. No other call is made. *)
Theorem error_log_action_arguments
    (fn : closure W (list value) unit) (params : list value)
    (success : option (LogEntry W)) (msg : string) e s :
  truthy e = true ->
  msg <> EmptyString ->
  Forall (fun d =>
            snd (d (Rejected e)
                   (Some (ConfigObject (Some (EntryAction fn (Some params)))
                                       success)) s)
            = {| trace := trace s ++ [CallFn MError params];
                 world := snd (fn params (world s)) |})
         (derivatives console)
  /\ Forall (fun d =>
            snd (d (Rejected e)
                   (Some (ConfigObject (Some (EntryAction fn None))
                                       success)) s)
            = {| trace := trace s ++ [CallFn MError []];
                 world := snd (fn [] (world s)) |})
         (derivatives console)
  /\ Forall (fun d =>
            snd (d (Rejected e)
                   (Some (ConfigObject (Some (EntryMessage msg)) success)) s)
            = {| trace := trace s ++ [CallConsole MError [VStr msg; e]];
                 world := snd (console MError [VStr msg; e] (world s)) |})
         (derivatives console)
  /\ Forall (fun d =>
            snd (d (Rejected e) (Some (ConfigMessage msg)) s)
            = {| trace := trace s ++ [CallConsole MError [VStr msg; e]];
                 world := snd (console MError [VStr msg; e] (world s)) |})
         (derivatives console).
Proof.
  intros T N.
  assert (I : forall A (c : call) (f : closure W A unit) (a : A),
             snd (invoke c f a s)
             = {| trace := trace s ++ [c]; world := snd (f a (world s)) |}).
  { intros A c f a. unfold invoke. destruct (f a (world s)); reflexivity. }
  repeat split; repeat constructor;
    rewrite ?valueOf_rejected, ?isSuccess_rejected, ?toResult_rejected, T,
      snd_bind_ret;
    rewrite ?handleLog_error_fn, ?(handleLog_error_message _ _ _ _ _ N T),
      ?(handleLog_message _ _ _ _ N T);
    apply I.
Qed.

(** C10. A go-style pair does not tell how the operation settled: success
    with value [null] and failure with reason [null] both give
    [[null, null]], from any go-style adapter (once its chain is walked)
    and from the shared internal handler, so that the three derivatives
    behave in the same way on both. *)
Theorem go_pair_hides_settlement
    (config : AsyncHandlerConfig W) (logs : option (LogConfig W))
    s :
  internalHandler (Resolved VNull) s = (Normal (VArr [VNull; VNull]), s)
  /\ internalHandler (Rejected VNull) s = (Normal (VArr [VNull; VNull]), s)
  /\ Forall (fun d => d (Rejected VNull) logs s = d (Resolved VNull) logs s)
            (derivatives console)
  /\ (style_of config = GO_STYLE ->
      fst (createAsyncHandler config (Resolved VNull) s)
        = Normal (VArr [VNull; VNull])
      /\ forall matched s1,
          walkChain 0 (chain_of config) VNull s = (Normal matched, s1) ->
          fst (createAsyncHandler config (Rejected VNull) s)
            = Normal (VArr [VNull; VNull])).
Proof.
  split; [|split; [|split]]; try reflexivity.
  - repeat constructor.
  - intros St. split.
    + rewrite createAsyncHandler_resolved, St. reflexivity.
    + intros matched s1 Wk.
      rewrite (createAsyncHandler_rejected config VNull s matched s1);
        [ rewrite St; reflexivity | rewrite St; reflexivity | exact Wk ].
Qed.
End DerivativeClaims.

(** * Evaluations on the sample handlers *)

(** C1. A rejection with a falsy reason is taken for a success. With an
    error action and a success action configured, for each of the reasons
    [0], [''], [false] and [null]: [isSuccess] returns [true], [valueOf]
    returns [null], and the only call made is the success action. *)
Theorem falsy_reason_reported_as_success :
  Forall (fun e =>
            isSuccess Sample.console (Rejected e) (Some Sample.logs_both)
              Sample.start
            = (Normal (VBool true),
               {| trace := [CallFn MLog []];
                  world := [VStr "success action"] |})
            /\ valueOf Sample.console (Rejected e) (Some Sample.logs_both)
                 Sample.start
               = (Normal VNull,
                  {| trace := [CallFn MLog []];
                     world := [VStr "success action"] |}))
         [VNum 0; VStr EmptyString; VBool false; VNull].
Proof. repeat constructor. Qed.

(** C8. [toResult] on a rejection with a falsy reason ([0], [''], [false],
    [null]) returns the success object [{success: true, data: null,
    error: null}]. *)
Theorem toResult_falsy_reason_reported_as_success :
  Forall (fun e =>
            toResult Sample.console (Rejected e) None Sample.start
            = (Normal (result_object true VNull VNull), Sample.start))
         [VNum 0; VStr EmptyString; VBool false; VNull].
Proof. repeat constructor. Qed.

(** First match wins on the chain of three, for the reason with code 500;
    on success nothing is called. *)
Lemma handlers_on_failure_first_match_wins_witness :
  (exists out,
     createAsyncHandler Sample.three (Resolved (VNum 7)) Sample.start
     = (Normal out, Sample.start))
  /\ (exists out,
       createAsyncHandler Sample.three (Rejected (Sample.err 500 "down"))
         Sample.start
       = (out,
          {| trace := [CallIfTrue 0 (Sample.err 500 "down");
                       CallIfTrue 1 (Sample.err 500 "down");
                       CallDoIt 1 (Sample.err 500 "down")];
             world := [VStr "second"] |})).
Proof.
  destruct (handlers_on_failure_first_match_wins Sample.three
              (Sample.H 404 "first") (Sample.H 500 "second")
              (Sample.H 500 "third") (VNum 7) (Sample.err 500 "down")
              Sample.start [] []) as [Ok Ko].
  split; [exact Ok | apply Ko; reflexivity].
Defined.

(** The three settlement styles on the success value [false] and the
    failure reason [0]. *)
Lemma settlement_styles_output_witness :
  (createAsyncHandler (Sample.shield GO_STYLE) (Resolved (VBool false))
     Sample.start
   = (Normal (VArr [VNull; VBool false]), Sample.start)
   /\ createAsyncHandler (Sample.shield GO_STYLE) (Rejected (VNum 0))
        Sample.start
      = (Normal (VArr [VNum 0; VNull]),
         {| trace := [CallIfTrue 0 (VNum 0)]; world := [] |}))
  /\ (createAsyncHandler (Sample.shield ONLY_ERROR) (Resolved (VBool false))
        Sample.start
      = (Normal (VNum 0), Sample.start)
      /\ createAsyncHandler (Sample.shield ONLY_ERROR) (Rejected (VNum 0))
           Sample.start
         = (Normal (VNum 1),
            {| trace := [CallIfTrue 0 (VNum 0)]; world := [] |}))
  /\ (createAsyncHandler (Sample.shield BOOLEAN) (Resolved (VBool false))
        Sample.start
      = (Normal (VBool true), Sample.start)
      /\ createAsyncHandler (Sample.shield BOOLEAN) (Rejected (VNum 0))
           Sample.start
         = (Normal (VBool false),
            {| trace := [CallIfTrue 0 (VNum 0)]; world := [] |})).
Proof.
  destruct (settlement_styles_output (Sample.shield GO_STYLE) (VBool false)
              (VNum 0) Sample.start) as (Go & _ & _).
  destruct (settlement_styles_output (Sample.shield ONLY_ERROR) (VBool false)
              (VNum 0) Sample.start) as (_ & Only & _).
  destruct (settlement_styles_output (Sample.shield BOOLEAN) (VBool false)
              (VNum 0) Sample.start) as (_ & _ & Boolean).
  destruct (Go eq_refl) as [GoOk GoKo].
  destruct (Only eq_refl) as [OnlyOk OnlyKo].
  destruct (Boolean eq_refl) as [BooleanOk BooleanKo].
  split; [|split]; split.
  - exact GoOk.
  - apply (GoKo false). reflexivity.
  - exact OnlyOk.
  - apply (OnlyKo false). reflexivity.
  - exact BooleanOk.
  - apply (BooleanKo false). reflexivity.
Defined.

(** The shield on a reason that no handler accepts: the default handler
    is called once with it and [false] is returned. *)
Lemma shielding_styles_output_witness :
  createAsyncHandler (Sample.shield FALSE_STYLE) (Resolved (VNum 0))
    Sample.start
  = (Normal (VNum 0), Sample.start)
  /\ exists s2,
       createAsyncHandler (Sample.shield FALSE_STYLE)
         (Rejected (Sample.err 500 "down")) Sample.start
       = (Normal (VBool false), s2)
       /\ trace s2 = [CallIfTrue 0 (Sample.err 500 "down");
                      CallDefaultHandler (Sample.err 500 "down")]
       /\ world s2 = [Sample.err 500 "down"]
       /\ default_calls (trace s2) = [Sample.err 500 "down"].
Proof.
  destruct (shielding_styles_output (Sample.shield FALSE_STYLE) (VNum 0)
              (Sample.err 500 "down") Sample.start (or_introl eq_refl))
    as [Ok Ko].
  split; [exact Ok|].
  apply (Ko false {| trace := [CallIfTrue 0 (Sample.err 500 "down")];
                     world := [] |}).
  reflexivity.
Defined.

(** An undocumented style: with no match the output is what the default
    handler returns; with a match the reason is raised again and the
    default handler is not called. *)
Lemma unrecognized_style_fallback_witness :
  createAsyncHandler
    (Sample.config "throw-style" [Sample.H 404 "expected"] Sample.recover)
    (Rejected (Sample.err 500 "down")) Sample.start
  = (Normal (VStr "recovered"),
     {| trace := [CallIfTrue 0 (Sample.err 500 "down");
                  CallDefaultHandler (Sample.err 500 "down")];
        world := [] |})
  /\ createAsyncHandler
       (Sample.config "throw-style" [Sample.H 404 "expected"] Sample.recover)
       (Rejected (Sample.err 404 "gone")) Sample.start
     = (Thrown (Sample.err 404 "gone"),
        {| trace := [CallIfTrue 0 (Sample.err 404 "gone");
                     CallDoIt 0 (Sample.err 404 "gone")];
           world := [VStr "expected"] |}).
Proof.
  split.
  - apply (unrecognized_style_fallback
             (Sample.config "throw-style" [Sample.H 404 "expected"]
                Sample.recover)
             (Sample.err 500 "down") Sample.start false
             {| trace := [CallIfTrue 0 (Sample.err 500 "down")];
                world := [] |});
      reflexivity.
  - apply (unrecognized_style_fallback
             (Sample.config "throw-style" [Sample.H 404 "expected"]
                Sample.recover)
             (Sample.err 404 "gone") Sample.start true
             {| trace := [CallIfTrue 0 (Sample.err 404 "gone");
                          CallDoIt 0 (Sample.err 404 "gone")];
                world := [VStr "expected"] |});
      reflexivity.
Defined.

(** C2 fails on a predicate that throws. The predicate [e.code === 404]
    throws a TypeError on the reason [null]; the go-style adapter fails
    with that TypeError instead of returning [[null, null]]. The same
    happens with a predicate that throws on every reason, under the
    shielding style. Under a style that is not documented, what the
    default handler throws reaches the caller as well. *)
Lemma throwing_predicate_propagates :
  createAsyncHandler (Sample.shield GO_STYLE) (Rejected VNull) Sample.start
  = (Thrown (VObj [("name", VStr "TypeError")]),
     {| trace := [CallIfTrue 0 VNull]; world := [] |})
  /\ createAsyncHandler
       (Sample.config FALSE_STYLE
          [{| ifTrue := Sample.throws Sample.boom; doIt := Sample.noop |}]
          Sample.report_reason)
       (Rejected (Sample.err 500 "down")) Sample.start
     = (Thrown Sample.boom,
        {| trace := [CallIfTrue 0 (Sample.err 500 "down")]; world := [] |})
  /\ createAsyncHandler
       (Sample.config "throw-style" [] (Sample.throws Sample.boom))
       (Rejected (Sample.err 500 "down")) Sample.start
     = (Thrown Sample.boom,
        {| trace := [CallDefaultHandler (Sample.err 500 "down")];
           world := [] |})
  /\ ~ (exists out s',
         createAsyncHandler (Sample.shield GO_STYLE) (Rejected VNull)
           Sample.start
         = (Normal out, s')).
Proof.
  repeat split. intros (out & s' & E). discriminate E.
Qed.

(** An action that throws after a match, and a default handler that
    throws after no match: the shielding styles return their boolean. A
    predicate that throws: the invocation fails with what it threw. *)
Lemma action_and_default_throws_swallowed_witness :
  (exists s2,
     createAsyncHandler
       (Sample.config FALSE_STYLE
          [Sample.when true (Sample.report_then_throw (VStr "ran") Sample.boom)]
          (Sample.throws Sample.boom))
       (Rejected (Sample.err 500 "down")) Sample.start
     = (Normal (VBool false), s2))
  /\ (exists s2,
       createAsyncHandler
         (Sample.config TRUE_STYLE [Sample.when false Sample.noop]
            (Sample.report_then_throw (VStr "ran") Sample.boom))
         (Rejected (Sample.err 500 "down")) Sample.start
       = (Normal (VBool true), s2))
  /\ createAsyncHandler (Sample.shield GO_STYLE) (Rejected VNull) Sample.start
     = (Thrown (VObj [("name", VStr "TypeError")]),
        {| trace := [CallIfTrue 0 VNull]; world := [] |}).
Proof.
  split; [|split].
  - apply (proj1 (action_and_default_throws_swallowed
             (Sample.config FALSE_STYLE
                [Sample.when true
                   (Sample.report_then_throw (VStr "ran") Sample.boom)]
                (Sample.throws Sample.boom))
             (Sample.err 500 "down") Sample.start eq_refl)).
    intros h [<-|[]] e w. exists true, w. reflexivity.
  - apply (proj1 (action_and_default_throws_swallowed
             (Sample.config TRUE_STYLE [Sample.when false Sample.noop]
                (Sample.report_then_throw (VStr "ran") Sample.boom))
             (Sample.err 500 "down") Sample.start eq_refl)).
    intros h [<-|[]] e w. exists false, w. reflexivity.
  - apply (proj1 (proj2 (proj2
             (action_and_default_throws_swallowed (Sample.shield GO_STYLE)
                VNull Sample.start eq_refl)))).
    reflexivity.
Defined.

(** C3 fails on a logging action that throws, and on a console that
    throws: the three derivatives fail with what was thrown instead of
    returning [false], [false] and the failure object. *)
Lemma throwing_log_action_propagates :
  Forall (fun d =>
            d (Rejected (VStr "Boom"))
              (Some (Sample.on_error (Sample.throws Sample.boom) [VNum 1]))
              Sample.start
            = (Thrown Sample.boom,
               {| trace := [CallFn MError [VNum 1]]; world := [] |}))
         (derivatives Sample.console)
  /\ Forall (fun d =>
               d (Rejected (VStr "Boom")) (Some (ConfigMessage "Failed"))
                 Sample.start
               = (Thrown (VStr "console is closed"),
                  {| trace := [CallConsole MError
                                 [VStr "Failed"; VStr "Boom"]];
                     world := [] |}))
            (derivatives Sample.broken_console)
  /\ ~ (exists out s',
         valueOf Sample.console (Rejected (VStr "Boom"))
           (Some (Sample.on_error (Sample.throws Sample.boom) [VNum 1]))
           Sample.start
         = (Normal out, s')).
Proof.
  split; [|split].
  - repeat constructor.
  - repeat constructor.
  - intros (out & s' & E). discriminate E.
Qed.

(** A throwing error action on a failure, and a throwing success action
    on a success. *)
Lemma logging_throw_propagates_witness :
  Forall (fun d =>
            d (Rejected (VStr "Boom"))
              (Some (Sample.on_error (Sample.throws Sample.boom) [VNum 1]))
              Sample.start
            = (Thrown Sample.boom,
               {| trace := [CallFn MError [VNum 1]]; world := [] |}))
         (derivatives Sample.console)
  /\ Forall (fun d =>
               d (Resolved (VNum 7))
                 (Some (ConfigObject None
                          (Some (EntryAction (Sample.throws Sample.boom)
                                   None))))
                 Sample.start
               = (Thrown Sample.boom,
                  {| trace := [CallFn MLog []]; world := [] |}))
            (derivatives Sample.console).
Proof.
  split.
  - apply (proj1 (logging_throw_propagates Sample.console
                    (Some (Sample.on_error (Sample.throws Sample.boom)
                             [VNum 1]))
                    (VStr "Boom") (VNum 7) Sample.start Sample.boom
                    {| trace := [CallFn MError [VNum 1]]; world := [] |}));
      reflexivity.
  - apply (proj2 (logging_throw_propagates Sample.console
                    (Some (ConfigObject None
                             (Some (EntryAction (Sample.throws Sample.boom)
                                      None))))
                    (VStr "Boom") (VNum 7) Sample.start Sample.boom
                    {| trace := [CallFn MLog []]; world := [] |}));
      reflexivity.
Defined.

(** C9 fails on the arguments of the error action: configured with the
    argument list [[1]] and run for the reason ["Boom"], the action is
    called with [[1]], not with [[1, "Boom"]]. An error entry that is the
    empty message is skipped: the console is not called. *)
Lemma error_action_not_given_reason :
  valueOf Sample.console (Rejected (VStr "Boom"))
    (Some (Sample.on_error Sample.record_args [VNum 1])) Sample.start
  = (Normal (VBool false),
     {| trace := [CallFn MError [VNum 1]]; world := [VArr [VNum 1]] |})
  /\ snd (valueOf Sample.console (Rejected (VStr "Boom"))
            (Some (Sample.on_error Sample.record_args [VNum 1]))
            Sample.start)
     <> {| trace := [CallFn MError [VNum 1; VStr "Boom"]];
           world := [VArr [VNum 1; VStr "Boom"]] |}
  /\ valueOf Sample.console (Rejected (VStr "Boom"))
       (Some (ConfigObject (Some (EntryMessage EmptyString)) None))
       Sample.start
     = (Normal (VBool false), Sample.start).
Proof.
  split; [reflexivity | split; [intros E; discriminate E | reflexivity]].
Qed.

(** The arguments received for the reason ["Boom"]. *)
Lemma error_log_action_arguments_witness :
  Forall (fun d =>
            snd (d (Rejected (VStr "Boom"))
                   (Some (Sample.on_error Sample.record_args [VNum 1]))
                   Sample.start)
            = {| trace := [CallFn MError [VNum 1]];
                 world := [VArr [VNum 1]] |})
         (derivatives Sample.console)
  /\ Forall (fun d =>
               snd (d (Rejected (VStr "Boom"))
                      (Some (ConfigMessage "Custom Error Msg")) Sample.start)
               = {| trace := [CallConsole MError
                                [VStr "Custom Error Msg"; VStr "Boom"]];
                    world := [VArr [VStr "error"; VStr "Custom Error Msg";
                                    VStr "Boom"]] |})
            (derivatives Sample.console).
Proof.
  pose proof (error_log_action_arguments Sample.console Sample.record_args
                [VNum 1] None "Custom Error Msg" (VStr "Boom") Sample.start
                eq_refl) as P.
  assert (N : "Custom Error Msg" <> EmptyString) by discriminate.
  destruct (P N) as (Pfn & _ & _ & Pmsg).
  split; [exact Pfn | exact Pmsg].
Defined.

(** The go-style pair of a handler whose chain declines [null], and the
    derivatives, on the two ways of settling with [null]. *)
Lemma go_pair_hides_settlement_witness :
  fst (createAsyncHandler
         (Sample.config GO_STYLE [Sample.when false Sample.noop]
            Sample.report_reason)
         (Resolved VNull) Sample.start)
  = Normal (VArr [VNull; VNull])
  /\ fst (createAsyncHandler
            (Sample.config GO_STYLE [Sample.when false Sample.noop]
               Sample.report_reason)
            (Rejected VNull) Sample.start)
     = Normal (VArr [VNull; VNull])
  /\ internalHandler (Resolved VNull) Sample.start
     = (Normal (VArr [VNull; VNull]), Sample.start)
  /\ internalHandler (Rejected VNull) Sample.start
     = (Normal (VArr [VNull; VNull]), Sample.start)
  /\ Forall (fun d =>
               d (Rejected VNull) (Some Sample.logs_both) Sample.start
               = d (Resolved VNull) (Some Sample.logs_both) Sample.start)
            (derivatives Sample.console).
Proof.
  destruct (go_pair_hides_settlement Sample.console
              (Sample.config GO_STYLE [Sample.when false Sample.noop]
                 Sample.report_reason)
              (Some Sample.logs_both) Sample.start)
    as (Ok & Ko & Same & Go).
  destruct (Go eq_refl) as [GoOk GoKo].
  split; [exact GoOk|].
  split; [|split; [exact Ok|split; [exact Ko|exact Same]]].
  apply (GoKo false {| trace := [CallIfTrue 0 VNull]; world := [] |}).
  reflexivity.
Defined.

(** * Further properties of the adapter *)

Section CoreExtras.
Context {W : Type}.
Implicit Types (s : state W) (e x data : value) (h : ConditionalHandler W)
  (chain : list (ConditionalHandler W)) (config : AsyncHandlerConfig W).

Lemma predicate_calls_S i n e :
  predicate_calls i (S n) e = CallIfTrue i e :: predicate_calls (S i) n e.
Proof. reflexivity. Qed.

(** X1. The shape of a walk of the chain, whatever the handlers do. The
    predicates are called in the order of the chain, each at most once and
    with the failure reason. A walk that matches nothing has called all of
    them and no action; a walk that matches has stopped at the accepting
    handler and called its action, once, as the last call; a walk that
    fails has stopped at the throwing predicate and has called no
    action. *)
Theorem walk_call_order chain : forall i e s,
  match walkChain i chain e s with
  | (Normal false, s') =>
      trace s' = trace s ++ predicate_calls i (length chain) e
  | (Normal true, s') =>
      exists m, m < length chain
        /\ trace s' = trace s ++ predicate_calls i (S m) e
                               ++ [CallDoIt (i + m) e]
  | (Thrown _, s') =>
      exists m, m < length chain
        /\ trace s' = trace s ++ predicate_calls i (S m) e
  end.
Proof.
  induction chain as [|h chain IH]; intros i e s.
  - simpl. now rewrite app_nil_r.
  - destruct (ifTrue h e (world s)) as [[[|]|x] w] eqn:P.
    + rewrite (walkChain_match _ _ _ _ _ _ P).
      exists 0. split; [simpl; lia|]. now rewrite Nat.add_0_r.
    + rewrite (walkChain_decline _ _ _ _ _ _ P).
      specialize (IH (S i) e
                     {| trace := trace s ++ [CallIfTrue i e]; world := w |}).
      destruct (walkChain (S i) chain e _) as [[[|]|x] s'];
        simpl trace in IH.
      * destruct IH as (m & L & T). exists (S m). split; [simpl; lia|].
        rewrite T, <- app_assoc, Nat.add_succ_r. reflexivity.
      * rewrite IH, <- app_assoc. reflexivity.
      * destruct IH as (m & L & T). exists (S m). split; [simpl; lia|].
        rewrite T, <- app_assoc. reflexivity.
    + rewrite (walkChain_predicate_throws _ _ _ _ _ _ _ P).
      exists 0. split; [simpl; lia | reflexivity].
Qed.
Lemma predicate_calls_snoc i n e :
  predicate_calls i (S n) e
  = predicate_calls i n e ++ [CallIfTrue (i + n) e].
Proof. unfold predicate_calls. now rewrite seq_S, map_app. Qed.

Lemma handler_calls_app (t1 t2 : list call) :
  handler_calls (t1 ++ t2) = handler_calls t1 + handler_calls t2.
Proof.
  induction t1 as [|c t1 IH]; simpl; [reflexivity|].
  destruct c; simpl; rewrite IH; reflexivity.
Qed.

Lemma handler_calls_predicates n : forall i e,
  handler_calls (predicate_calls i n e) = 0.
Proof.
  induction n as [|n IH]; intros i e; [reflexivity|].
  rewrite predicate_calls_S. simpl. apply IH.
Qed.

Lemma trace_invoke {A B} (c : call) (f : closure W A B) (a : A) s :
  trace (snd (invoke c f a s)) = trace s ++ [c].
Proof. unfold invoke. destruct (f a (world s)); reflexivity. Qed.

(** The handler calls of a walk: one when it matched, none otherwise. *)
Lemma walkChain_handler_calls chain i e s :
  handler_calls (trace (snd (walkChain i chain e s)))
  = handler_calls (trace s)
    + match fst (walkChain i chain e s) with
      | Normal true => 1
      | _ => 0
      end.
Proof.
  pose proof (walk_call_order chain i e s) as Sh.
  destruct (walkChain i chain e s) as [[[|]|x] s']; simpl.
  - destruct Sh as (m & _ & ->).
    rewrite !handler_calls_app, handler_calls_predicates. simpl. lia.
  - rewrite Sh, handler_calls_app, handler_calls_predicates. lia.
  - destruct Sh as (m & _ & ->).
    rewrite handler_calls_app, handler_calls_predicates. lia.
Qed.

(** X2. At most one side-effect handler runs per invocation, for every
    config (any return style, documented or not), every settlement and
    whatever the handlers do: the calls to a conditional action and to the
    default handler made by one invocation number zero or one. *)
Theorem at_most_one_handler_runs config (promise : settled) s :
  let s' := snd (createAsyncHandler config promise s) in
  handler_calls (trace s) <= handler_calls (trace s')
  /\ handler_calls (trace s') <= handler_calls (trace s) + 1.
Proof.
  destruct promise as [data|e]; cbv zeta.
  { rewrite createAsyncHandler_resolved. simpl. lia. }
  pose proof (walkChain_handler_calls (chain_of config) 0 e s) as Hc.
  destruct (walkChain 0 (chain_of config) e s) as [[matched|x] s1] eqn:Wk;
    simpl in Hc.
  - destruct (recognized (style_of config)) eqn:R.
    + rewrite (createAsyncHandler_rejected _ _ _ _ _ R Wk). simpl.
      unfold after_walk.
      destruct ((style_of config =? FALSE_STYLE)
                || (style_of config =? TRUE_STYLE)); simpl;
        destruct matched; simpl;
        rewrite ?trace_invoke, ?handler_calls_app; simpl; lia.
    + rewrite (createAsyncHandler_fallback _ _ _ _ _ R Wk).
      destruct matched; simpl;
        rewrite ?trace_invoke, ?handler_calls_app; simpl; lia.
  - rewrite (createAsyncHandler_walk_thrown _ _ _ _ _ Wk). simpl. lia.
Qed.

(** X3. [errorStyle]: a success returns the value and a failure returns
    the reason itself, as a normal output, once the chain is walked; the
    default handler is not called, whether a conditional handler matched
    or not. *)
Theorem error_style_output config data e s :
  style_of config = ERROR_STYLE ->
  createAsyncHandler config (Resolved data) s = (Normal data, s)
  /\ forall matched s1,
       walkChain 0 (chain_of config) e s = (Normal matched, s1) ->
       createAsyncHandler config (Rejected e) s = (Normal e, s1)
       /\ default_calls (trace s1) = default_calls (trace s).
Proof.
  intros St. split.
  - rewrite createAsyncHandler_resolved, St. reflexivity.
  - intros matched s1 Wk. split.
    + rewrite (createAsyncHandler_rejected config e s matched s1);
        [ unfold after_walk; rewrite St; reflexivity
        | rewrite St; reflexivity
        | exact Wk ].
    + pose proof (walkChain_default_calls (chain_of config) 0 e s) as Q.
      rewrite Wk in Q. exact Q.
Qed.

(** X4. An undocumented return style without a [defaultHandler]: the
    default handler re-raises, so a failing invocation whose walk completes
    always fails with the original reason, whether a conditional handler
    matched or not; nothing after the walk changes the world. *)
Theorem fallback_without_default_reraises config e s matched s1 :
  recognized (style_of config) = false ->
  defaultHandler config = None ->
  walkChain 0 (chain_of config) e s = (Normal matched, s1) ->
  exists s2,
    createAsyncHandler config (Rejected e) s = (Thrown e, s2)
    /\ world s2 = world s1.
Proof.
  intros R D Wk. rewrite (createAsyncHandler_fallback _ _ _ _ _ R Wk).
  destruct matched.
  - exists s1. split; reflexivity.
  - unfold default_of. rewrite D. eexists. split; reflexivity.
Qed.

(** X5. The default handler plays no part under [goStyle], [only-error],
    [boolean] and [errorStyle]: replacing it, or leaving it out, changes
    neither the result nor the calls nor the world, for any settlement. *)
Theorem default_handler_unused config d (promise : settled) s :
  In (style_of config) [GO_STYLE; ONLY_ERROR; BOOLEAN; ERROR_STYLE] ->
  createAsyncHandler (with_default config d) promise s
  = createAsyncHandler config promise s.
Proof.
  intros St. destruct promise as [data|e].
  - rewrite !createAsyncHandler_resolved. reflexivity.
  - destruct (walkChain 0 (chain_of config) e s) as [[matched|x] s1] eqn:Wk.
    + assert (R : recognized (style_of config) = true).
      { destruct St as [<-|[<-|[<-|[<-|[]]]]]; reflexivity. }
      rewrite (createAsyncHandler_rejected (with_default config d) e s
                 matched s1 R Wk).
      rewrite (createAsyncHandler_rejected config e s matched s1 R Wk).
      unfold after_walk.
      change (style_of (with_default config d)) with (style_of config).
      destruct St as [<-|[<-|[<-|[<-|[]]]]]; reflexivity.
    + rewrite (createAsyncHandler_walk_thrown (with_default config d)
                 e s x s1 Wk).
      rewrite (createAsyncHandler_walk_thrown config e s x s1 Wk).
      reflexivity.
Qed.

(** X6. First match wins at any position. When the handlers before [h]
    all decline and [h] accepts, the invocation calls the predicates up
    to [h] and then the action of [h], nothing else; the result is the
    output of the style (the reason re-raised for an undocumented style).
    The handlers after [h] play no part: the statement holds whatever
    they are. *)
Theorem first_match_at_any_position config pre h post e s s1 w :
  chain_of config = pre ++ h :: post ->
  walkChain 0 pre e s = (Normal false, s1) ->
  ifTrue h e (world s1) = (Normal true, w) ->
  createAsyncHandler config (Rejected e) s
  = (if recognized (style_of config)
     then Normal (failure_output (style_of config) e)
     else Thrown e,
     {| trace := trace s ++ predicate_calls 0 (S (length pre)) e
                         ++ [CallDoIt (length pre) e];
        world := snd (doIt h e w) |}).
Proof.
  intros C Pre P.
  pose proof (walk_call_order pre 0 e s) as Sh. rewrite Pre in Sh.
  assert (Wk : walkChain 0 (chain_of config) e s
               = (Normal true,
                  {| trace := trace s ++ predicate_calls 0 (S (length pre)) e
                                      ++ [CallDoIt (length pre) e];
                     world := snd (doIt h e w) |})).
  { rewrite C, (walkChain_first_match _ _ _ _ _ _ _ _ Pre P), Sh.
    rewrite predicate_calls_snoc, <- !app_assoc. reflexivity. }
  destruct (recognized (style_of config)) eqn:R.
  - rewrite (createAsyncHandler_rejected _ _ _ _ _ R Wk).
    unfold after_walk. rewrite andb_false_r. reflexivity.
  - rewrite (createAsyncHandler_fallback _ _ _ _ _ R Wk). reflexivity.
Qed.

(** X17. Under the six documented styles an invocation fails only while
    walking the chain, and then no side-effect handler has run: the calls
    made are the predicates up to the one that threw, no action and not the
    default handler, so the failure is reported to none of them. *)
Theorem failed_invocation_ran_no_handler config e s x s' :
  recognized (style_of config) = true ->
  createAsyncHandler config (Rejected e) s = (Thrown x, s') ->
  handler_calls (trace s') = handler_calls (trace s)
  /\ exists m, m < length (chain_of config)
       /\ trace s' = trace s ++ predicate_calls 0 (S m) e.
Proof.
  intros R E.
  pose proof (walk_call_order (chain_of config) 0 e s) as Sh.
  destruct (walkChain 0 (chain_of config) e s) as [[matched|y] s1] eqn:Wk.
  - rewrite (createAsyncHandler_rejected _ _ _ _ _ R Wk) in E.
    discriminate E.
  - rewrite (createAsyncHandler_walk_thrown _ _ _ _ _ Wk) in E.
    injection E as _ <-.
    destruct Sh as (m & L & T). split; [|now exists m].
    rewrite T, handler_calls_app, handler_calls_predicates. lia.
Qed.
End CoreExtras.

(** * Further properties of the derivatives *)

Section DerivativeExtras.
Context {W : Type}.
Variable console : method -> closure W (list value) unit.
Implicit Types (s : state W) (e x data : value)
  (config : option (LogConfig W)) (promise : settled).

Lemma snd_invoke {A B} (c : call) (f : closure W A B) (a : A) s :
  snd (invoke c f a s)
  = {| trace := trace s ++ [c]; world := snd (f a (world s)) |}.
Proof. unfold invoke. destruct (f a (world s)); reflexivity. Qed.

Lemma bind_ret_output {A B} (m : M W A) (b out : B) s s' :
  (m ;; ret b) s = (Normal out, s') -> out = b.
Proof.
  unfold bind, ret. destruct (m s) as [[a|x] s1]; [|discriminate].
  now intros [= -> _].
Qed.

(** The logging step makes at most one call, to a logging action or to
    the console. *)
Lemma handleLog_calls config type payload s :
  exists l,
    trace (snd (handleLog console config type payload s)) = trace s ++ l
    /\ length l <= 1 /\ forallb log_call l = true.
Proof.
  assert (Z0 : exists l : list call,
             trace s = trace s ++ l /\ length l <= 1
             /\ forallb log_call l = true).
  { exists []. rewrite app_nil_r. repeat split. simpl. lia. }
  assert (Z1 : forall A (c : call) (f : closure W A unit) (a : A),
             log_call c = true ->
             exists l : list call,
               trace (snd (invoke c f a s)) = trace s ++ l
               /\ length l <= 1 /\ forallb log_call l = true).
  { intros A c f a L. exists [c]. rewrite snd_invoke. simpl.
    rewrite L. repeat split. lia. }
  destruct config as [[m|[[m|fn ps]|] [[m'|fn' ps']|]]|], type; simpl;
    repeat match goal with
           | |- context [?a =? EmptyString] =>
               destruct (a =? EmptyString); simpl
           end;
    first [exact Z0 | now apply Z1].
Qed.

(** Two log configurations with the same logging step for a settlement
    give each derivative the same outcome on it. *)
Lemma derivatives_same_step config config' promise s :
  handleLog console config (step_type promise) (step_payload promise) s
  = handleLog console config' (step_type promise) (step_payload promise) s ->
  Forall (fun d => d promise config s = d promise config' s)
         (derivatives console).
Proof.
  intros L. unfold derivatives.
  destruct promise as [data|e]; simpl in L.
  - repeat constructor;
      rewrite ?valueOf_resolved, ?isSuccess_resolved, ?toResult_resolved;
      unfold bind; rewrite L; reflexivity.
  - repeat constructor;
      rewrite ?valueOf_rejected, ?isSuccess_rejected, ?toResult_rejected;
      destruct (truthy e); unfold bind; rewrite L; reflexivity.
Qed.

(** X7. A string as log configuration is a shorthand for
    [{ error: string }]: the two give each derivative the same result, the
    same calls and the same world, on every settlement. *)
Theorem message_config_is_error_entry (msg : string) promise s :
  Forall (fun d =>
            d promise (Some (ConfigMessage msg)) s
            = d promise (Some (ConfigObject (Some (EntryMessage msg)) None))
                s)
         (derivatives console).
Proof.
  apply derivatives_same_step.
  destruct (step_type promise); simpl;
    destruct (msg =? EmptyString) eqn:N; simpl; rewrite ?N; reflexivity.
Qed.

(** X8. The success step. When the operation succeeds and the success
    entry is [{fn, params}], each derivative calls [fn] with exactly
    [params]; when it is a non-empty message, each derivative calls
    [console.log] with the message and the empty string (the missing
    payload is replaced by ['']). The error entry plays no part. *)
Theorem success_log_action_arguments
    (fn : closure W (list value) unit) (params : list value)
    (error : option (LogEntry W)) (msg : string) data s :
  msg <> EmptyString ->
  Forall (fun d =>
            snd (d (Resolved data)
                   (Some (ConfigObject error
                            (Some (EntryAction fn (Some params))))) s)
            = {| trace := trace s ++ [CallFn MLog params];
                 world := snd (fn params (world s)) |})
         (derivatives console)
  /\ Forall (fun d =>
               snd (d (Resolved data)
                      (Some (ConfigObject error (Some (EntryMessage msg))))
                      s)
               = {| trace := trace s ++
                      [CallConsole MLog [VStr msg; VStr EmptyString]];
                    world := snd (console MLog
                                    [VStr msg; VStr EmptyString]
                                    (world s)) |})
            (derivatives console).
Proof.
  intros N. apply String.eqb_neq in N. split; repeat constructor;
    rewrite ?valueOf_resolved, ?isSuccess_resolved, ?toResult_resolved,
      snd_bind_ret;
    unfold handleLog, entry_present, executeAction; rewrite ?N; simpl;
    apply snd_invoke.
Qed.

(** X9. Without a log configuration the derivatives call nothing and
    never fail: on every settlement each returns an output and leaves the
    calls and the world as they were. *)
Theorem derivatives_without_config promise s :
  Forall (fun d => exists out, d promise None s = (Normal out, s))
         (derivatives console).
Proof.
  destruct promise as [data|e]; repeat constructor;
    rewrite ?valueOf_rejected, ?isSuccess_rejected, ?toResult_rejected;
    try destruct (truthy e); eexists; reflexivity.
Qed.

(** X10. The log configuration never changes what a derivative returns:
    an output returned under any configuration is the output returned
    without one. *)
Theorem log_config_keeps_output
    (d : settled -> option (LogConfig W) -> M W value)
    promise config s out s' :
  In d (derivatives console) ->
  d promise config s = (Normal out, s') ->
  d promise None s = (Normal out, s).
Proof.
  intros I E.
  destruct I as [<-|[<-|[<-|[]]]]; destruct promise as [data|e];
    rewrite ?valueOf_resolved, ?isSuccess_resolved, ?toResult_resolved,
      ?valueOf_rejected, ?isSuccess_rejected, ?toResult_rejected in E |- *;
    try destruct (truthy e);
    apply bind_ret_output in E; subst out; reflexivity.
Qed.

(** X11. The object returned by [toResult] is well formed under every log
    configuration: it has the fields [success], [data] and [error]; when
    [success] is [true] the [error] is [null]; when [success] is [false]
    the [data] is [null] and the [error] is truthy. *)
Theorem toResult_object_shape promise config s out s' :
  toResult console promise config s = (Normal out, s') ->
  exists (success : bool) (data error : value),
    out = result_object success data error
    /\ if success then error = VNull
       else data = VNull /\ truthy error = true.
Proof.
  destruct promise as [v|e];
    rewrite ?toResult_resolved, ?toResult_rejected.
  - intros E. apply bind_ret_output in E.
    exists true, v, VNull. now split.
  - destruct (truthy e) eqn:T; intros E; apply bind_ret_output in E.
    + exists false, VNull, e. now repeat split.
    + exists true, VNull, VNull. now split.
Qed.

(** X12. What [false] means, without a log configuration. [isSuccess]
    returns [false] exactly for a failure with a truthy reason; [valueOf]
    returns [false] exactly for such a failure and for a success whose
    value is [false], which it does not tell apart. *)
Theorem false_output_meaning promise s :
  (isSuccess console promise None s = (Normal (VBool false), s)
   <-> exists e, promise = Rejected e /\ truthy e = true)
  /\ (valueOf console promise None s = (Normal (VBool false), s)
      <-> promise = Resolved (VBool false)
          \/ exists e, promise = Rejected e /\ truthy e = true).
Proof.
  split; split.
  - destruct promise as [v|e];
      rewrite ?isSuccess_resolved, ?isSuccess_rejected.
    + discriminate.
    + destruct (truthy e) eqn:T; [|discriminate].
      intros _. now exists e.
  - intros (e & -> & T). now rewrite isSuccess_rejected, T.
  - destruct promise as [v|e];
      rewrite ?valueOf_resolved, ?valueOf_rejected.
    + intros [= ->]. now left.
    + destruct (truthy e) eqn:T; [|discriminate].
      intros _. right. now exists e.
  - intros [->|(e & -> & T)]; [reflexivity|].
    now rewrite valueOf_rejected, T.
Qed.

(** X13. [toResult] keeps the settlements apart that the derivatives can
    detect: two settlements, each a success or a failure with a truthy
    reason, that give the same result object are the same settlement. A
    success with [false], [0] or [null] is never taken for a failure. *)
Theorem toResult_injective promise promise' s :
  detectable promise = true ->
  detectable promise' = true ->
  toResult console promise None s = toResult console promise' None s ->
  promise = promise'.
Proof.
  destruct promise as [v|e], promise' as [v'|e']; simpl; intros D D';
    rewrite ?toResult_resolved, ?toResult_rejected.
  - cbn. unfold ret. intros [= ->]. reflexivity.
  - rewrite D'. cbn. unfold ret. intros [=].
  - rewrite D. cbn. unfold ret. intros [=].
  - rewrite D, D'. cbn. unfold ret. intros [= ->]. reflexivity.
Qed.

(** X14. Only the entry of the branch taken is used. On a success the
    error entry plays no part, and on a failure with a truthy reason the
    success entry plays none: replacing the unused entry changes neither
    the result nor the calls nor the world. *)
Theorem unused_log_entry_ignored
    (error error' success success' : option (LogEntry W)) data e s :
  truthy e = true ->
  Forall (fun d =>
            d (Resolved data) (Some (ConfigObject error success)) s
            = d (Resolved data) (Some (ConfigObject error' success)) s)
         (derivatives console)
  /\ Forall (fun d =>
               d (Rejected e) (Some (ConfigObject error success)) s
               = d (Rejected e) (Some (ConfigObject error success')) s)
            (derivatives console).
Proof.
  intros T. split; apply derivatives_same_step; simpl; rewrite ?T;
    reflexivity.
Qed.

(** X15. Empty messages are skipped. An empty string as log
    configuration behaves as no configuration, and an empty message as
    error or success entry behaves as a missing entry, for each derivative
    and every settlement: the console is not called with it. *)
Theorem empty_message_skipped
    (error success : option (LogEntry W)) promise s :
  Forall (fun d =>
            d promise (Some (ConfigMessage EmptyString)) s
            = d promise None s)
         (derivatives console)
  /\ Forall (fun d =>
               d promise
                 (Some (ConfigObject (Some (EntryMessage EmptyString))
                          success)) s
               = d promise (Some (ConfigObject None success)) s)
            (derivatives console)
  /\ Forall (fun d =>
               d promise
                 (Some (ConfigObject error
                          (Some (EntryMessage EmptyString)))) s
               = d promise (Some (ConfigObject error None)) s)
            (derivatives console).
Proof.
  split; [|split]; apply derivatives_same_step;
    destruct (step_type promise); reflexivity.
Qed.

(** X16. One invocation of a derivative makes at most one call into user
    code, to a logging action or to the console, under every log
    configuration and on every settlement; no conditional handler and no
    default handler is involved. *)
Theorem derivative_calls_at_most_one_logger promise config s :
  Forall (fun d =>
            exists l,
              trace (snd (d promise config s)) = trace s ++ l
              /\ length l <= 1
              /\ forallb log_call l = true)
         (derivatives console).
Proof.
  destruct promise as [v|e]; repeat constructor;
    rewrite ?valueOf_resolved, ?isSuccess_resolved, ?toResult_resolved,
      ?valueOf_rejected, ?isSuccess_rejected, ?toResult_rejected;
    try destruct (truthy e);
    rewrite snd_bind_ret; apply handleLog_calls.
Qed.
End DerivativeExtras.

(** * Evaluations of the further properties *)

(** [errorStyle] on the shield: the reason with code 500 is returned as
    the output and nothing is reported. *)
Lemma error_style_output_witness :
  createAsyncHandler (Sample.shield ERROR_STYLE) (Resolved (VNum 0))
    Sample.start
  = (Normal (VNum 0), Sample.start)
  /\ createAsyncHandler (Sample.shield ERROR_STYLE)
       (Rejected Scenario.down) Sample.start
     = (Normal Scenario.down,
        {| trace := [CallIfTrue 0 Scenario.down]; world := [] |}).
Proof.
  destruct (error_style_output (Sample.shield ERROR_STYLE) (VNum 0)
              Scenario.down Sample.start eq_refl) as [Ok Ko].
  split; [exact Ok|].
  apply (Ko false {| trace := [CallIfTrue 0 Scenario.down]; world := [] |}).
  reflexivity.
Defined.

(** The shield on the reason [null]: its predicate throws, and neither
    the action nor the default handler is called. *)
Lemma failed_invocation_ran_no_handler_witness :
  handler_calls [CallIfTrue 0 VNull] = handler_calls []
  /\ exists m, m < 1 /\ [CallIfTrue 0 VNull] = predicate_calls 0 (S m) VNull.
Proof.
  apply (failed_invocation_ran_no_handler (Sample.shield FALSE_STYLE) VNull
           Sample.start (VObj [("name", VStr "TypeError")])
           {| trace := [CallIfTrue 0 VNull]; world := [] |});
    reflexivity.
Defined.

(** An undocumented style and no default handler: the reason comes back
    as the failure. *)
Lemma fallback_without_default_reraises_witness :
  exists s2,
    createAsyncHandler
      (Scenario.no_default "throw-style" [Sample.H 404 "expected"])
      (Rejected Scenario.down) Sample.start
    = (Thrown Scenario.down, s2)
    /\ world s2 = [].
Proof.
  apply (fallback_without_default_reraises
           (Scenario.no_default "throw-style" [Sample.H 404 "expected"])
           Scenario.down Sample.start false
           {| trace := [CallIfTrue 0 Scenario.down]; world := [] |});
    reflexivity.
Defined.

(** The go-style shield with its default handler taken away. *)
Lemma default_handler_unused_witness :
  createAsyncHandler (with_default (Sample.shield GO_STYLE) None)
    (Rejected Scenario.down) Sample.start
  = createAsyncHandler (Sample.shield GO_STYLE)
      (Rejected Scenario.down) Sample.start.
Proof.
  apply (default_handler_unused (Sample.shield GO_STYLE) None
           (Rejected Scenario.down) Sample.start).
  left. reflexivity.
Defined.

(** The chain of three, read as one declining handler, the accepting one
    and the rest. *)
Lemma first_match_at_any_position_witness :
  createAsyncHandler Sample.three (Rejected Scenario.down) Sample.start
  = (Normal (VBool false),
     {| trace := [CallIfTrue 0 Scenario.down; CallIfTrue 1 Scenario.down;
                  CallDoIt 1 Scenario.down];
        world := [VStr "second"] |}).
Proof.
  apply (first_match_at_any_position Sample.three
           [Sample.H 404 "first"] (Sample.H 500 "second")
           [Sample.H 500 "third"] Scenario.down Sample.start
           {| trace := [CallIfTrue 0 Scenario.down]; world := [] |} []);
    reflexivity.
Defined.

(** A success under a configuration with a success action and with a
    success message. *)
Lemma success_log_action_arguments_witness :
  Forall (fun d =>
            snd (d (Resolved (VNum 7)) (Some Scenario.redirect_or_message)
                   Sample.start)
            = {| trace := [CallFn MLog [VStr "/dashboard"]];
                 world := [VArr [VStr "/dashboard"]] |})
         (derivatives Sample.console)
  /\ Forall (fun d =>
               snd (d (Resolved (VNum 7))
                      (Some (ConfigObject (Some (EntryMessage "Failed"))
                               (Some (EntryMessage "Got it!"))))
                      Sample.start)
               = {| trace := [CallConsole MLog
                                [VStr "Got it!"; VStr EmptyString]];
                    world := [VArr [VStr "log"; VStr "Got it!";
                                    VStr EmptyString]] |})
            (derivatives Sample.console).
Proof.
  assert (N : "Got it!" <> EmptyString) by discriminate.
  exact (success_log_action_arguments Sample.console Sample.record_args
           [VStr "/dashboard"] (Some (EntryMessage "Failed")) "Got it!"
           (VNum 7) Sample.start N).
Defined.

(** [valueOf] returns [false] on a failure with and without a message. *)
Lemma log_config_keeps_output_witness :
  valueOf Sample.console (Rejected (VStr "Boom")) None Sample.start
  = (Normal (VBool false), Sample.start).
Proof.
  apply (log_config_keeps_output Sample.console (valueOf Sample.console)
           (Rejected (VStr "Boom")) (Some (ConfigMessage "Custom Error Msg"))
           Sample.start (VBool false)
           {| trace := [CallConsole MError
                          [VStr "Custom Error Msg"; VStr "Boom"]];
              world := [VArr [VStr "error"; VStr "Custom Error Msg";
                              VStr "Boom"]] |});
    [left; reflexivity | reflexivity].
Defined.

(** The object returned for a failure under a message configuration. *)
Lemma toResult_object_shape_witness :
  exists (success : bool) (data error : value),
    result_object false VNull (VStr "Boom")
    = result_object success data error
    /\ if success then error = VNull
       else data = VNull /\ truthy error = true.
Proof.
  apply (toResult_object_shape Sample.console (Rejected (VStr "Boom"))
           (Some (ConfigMessage "Custom Error Msg")) Sample.start
           (result_object false VNull (VStr "Boom"))
           {| trace := [CallConsole MError
                          [VStr "Custom Error Msg"; VStr "Boom"]];
              world := [VArr [VStr "error"; VStr "Custom Error Msg";
                              VStr "Boom"]] |}).
  reflexivity.
Defined.

(** Two detectable settlements with the same result object. *)
Lemma toResult_injective_witness :
  Resolved (VBool false) = Resolved (VBool false).
Proof.
  apply (toResult_injective Sample.console (Resolved (VBool false))
           (Resolved (VBool false)) Sample.start);
    reflexivity.
Defined.

(** The error entry on a success and the success entry on a failure. *)
Lemma unused_log_entry_ignored_witness :
  Forall (fun d =>
            d (Resolved (VNum 7)) (Some Scenario.redirect_or_message)
              Sample.start
            = d (Resolved (VNum 7))
                (Some (ConfigObject None
                         (Some (EntryAction Sample.record_args
                                  (Some [VStr "/dashboard"])))))
                Sample.start)
         (derivatives Sample.console)
  /\ Forall (fun d =>
               d (Rejected (VStr "Boom")) (Some Scenario.redirect_or_message)
                 Sample.start
               = d (Rejected (VStr "Boom"))
                   (Some (ConfigObject (Some (EntryMessage "Failed")) None))
                   Sample.start)
            (derivatives Sample.console).
Proof.
  exact (unused_log_entry_ignored Sample.console
           (Some (EntryMessage "Failed")) None
           (Some (EntryAction Sample.record_args (Some [VStr "/dashboard"])))
           None (VNum 7) (VStr "Boom") Sample.start eq_refl).
Defined.
